(** * The health server of the Ollama worker: [src/health_server.py]

    A shallow embedding of the module and of its [GET /ping] handler.

    The module reads two port numbers and a log level from the process
    environment when it is imported, builds one shared HTTP client, and
    serves one route.  The handler logs, sends one [HEAD] request to the
    local Ollama server and answers with a two-field dictionary.

    Python's effects are embedded as follows.
    - A call either returns a value or raises: [Outcome].
    - What the outside does is fixed by a [World]: what the logging
      handlers do with a record, and what the Ollama server answers to a
      request.
    - What the handler does to the outside is recorded in a [Trace], which
      every computation threads: the monad [M].
    - What the interpreter brings to [int] and is no code of the module,
      the table of the Unicode decimal digits and the format of [repr], is
      a parameter: the class [Runtime]. *)

From Stdlib Require Import ZArith NArith List String Ascii Bool Lia QArith.
From Stdlib Require Import Decimal DecimalString DecimalZ DecimalPos DecimalN.
Import ListNotations.

#[local] Open Scope string_scope.
#[local] Open Scope Z_scope.

(** ** Exceptions *)

Module Py.

(** The exception classes that the module or its collaborators raise.  The
    last three derive from [BaseException] only; every other one derives
    from [Exception]. *)
Inductive ExcClass : Type :=
  | ValueError
  | OSError
  | RuntimeError
  | AttributeError
  | ConnectError        (* httpx: the connection was refused *)
  | ConnectTimeout      (* httpx: no connection within the timeout *)
  | ReadTimeout         (* httpx: no response within the timeout *)
  | ReadError           (* httpx: the connection was reset *)
  | OtherError (name : string)
  | CancelledError      (* asyncio: the awaiting task was cancelled *)
  | KeyboardInterrupt
  | SystemExit.

Record Exc : Type := mkExc { exc_class : ExcClass; exc_args : string }.

(** [issubclass(c, Exception)] *)
Definition derives_Exception (c : ExcClass) : bool :=
  match c with
  | CancelledError | KeyboardInterrupt | SystemExit => false
  | _ => true
  end.

(** [isinstance(e, Exception)], the test of an [except Exception] clause. *)
Definition isinstance_Exception (e : Exc) : bool :=
  derives_Exception (exc_class e).

(** [str(e)], as an f-string formats [{e}]. *)
Definition str_exc (e : Exc) : string := exc_args e.

(** A call returns or raises. *)
Inductive Outcome (A : Type) : Type :=
  | Returned (a : A)
  | Raised (e : Exc).
Arguments Returned {A} a.
Arguments Raised {A} e.

(** ** [str(n)] and [int(s)] on integers *)

(** [str(n)]: decimal digits, a minus sign for negative numbers.  This
    is [str] on the integers of at most 4300 digits; on longer ones [str]
    raises.  The module formats the integers [int] returned and status
    codes, all within that limit. *)
Definition str_int (n : Z) : string :=
  NilEmpty.string_of_int (Z.to_int n).

(** A Python [str] that [int] may be given, as the list of its code
    points.  A [string] is read as the text of its characters. *)
Definition Text : Type := list N.

Definition text_of_string (s : string) : Text :=
  List.map N_of_ascii (list_ascii_of_string s).
Coercion text_of_string : string >-> Text.

(** [a == b] on texts. *)
Fixpoint text_eqb (a b : Text) : bool :=
  match a, b with
  | [], [] => true
  | x :: a', y :: b' => N.eqb x y && text_eqb a' b'
  | _, _ => false
  end.

Inductive DecimalDigit : Type :=
  | Zero | One | Two | Three | Four | Five | Six | Seven | Eight | Nine.

Definition digit_val (d : DecimalDigit) : Z :=
  match d with
  | Zero => 0 | One => 1 | Two => 2 | Three => 3 | Four => 4
  | Five => 5 | Six => 6 | Seven => 7 | Eight => 8 | Nine => 9
  end.

(** What [int] takes from the interpreter: [Py_UNICODE_TODECIMAL], the
    decimal digit a code point stands for in the Unicode database of the
    interpreter, and the format [%.200R] of its error message, the [repr]
    of the text cut to 200 characters. *)
Class Runtime : Type := {
  todecimal : N -> option DecimalDigit;
  repr200 : Text -> string
}.

(** [Py_UNICODE_ISSPACE] from code point 127 on. *)
Definition unicode_isspace (c : N) : bool :=
  ((c =? 133) || (c =? 160) || (c =? 5760) ||
   ((8192 <=? c) && (c <=? 8202)) ||
   (c =? 8232) || (c =? 8233) || (c =? 8239) || (c =? 8287) || (c =? 12288))%N.

(** What a code point is to [int] in base 10. *)
Inductive Sym : Type :=
  | Space | Plus | Minus | Underscore | Digit (d : Z) | Other.

(** Below code point 127: the spaces of [Py_ISSPACE], the two signs, the
    underscore and the digits. *)
Definition sym_of_ascii (c : N) : Sym :=
  if (((9 <=? c) && (c <=? 13)) || (c =? 32))%N then Space
  else if (c =? 43)%N then Plus
  else if (c =? 45)%N then Minus
  else if (c =? 95)%N then Underscore
  else if ((48 <=? c) && (c <=? 57))%N then Digit (Z.of_N c - 48)
  else Other.

Section Int.

Context {R : Runtime}.

(** [int] first rewrites its text: a code point below 127 stays, a
    Unicode space becomes a space, a Unicode decimal digit its ASCII
    digit, and anything else a character no literal has. *)
Definition sym (c : N) : Sym :=
  if (c <? 127)%N then sym_of_ascii c
  else if unicode_isspace c then Space
  else match todecimal c with
       | Some d => Digit (digit_val d)
       | None => Other
       end.

Definition isspace (c : N) : bool :=
  match sym c with Space => true | _ => false end.


Fixpoint skip_spaces (s : Text) : Text :=
  match s with
  | c :: r => if isspace c then skip_spaces r else s
  | [] => s
  end.

(** The scan of the digits of a literal, in base 10.  [prev_us] tells
    whether the previous character was an underscore, [ndigits] counts the
    digits read, [acc] is their value.  The scan stops at the first
    character that is neither a digit nor an underscore and returns the
    value and the count with the rest of the text.  Two underscores in a
    row, an underscore at the end and a literal with no digit are
    errors. *)
Fixpoint scan_digits (s : Text) (prev_us : bool) (ndigits : nat) (acc : Z)
  : option (Z * nat * Text) :=
  let stop :=
    if prev_us then None
    else match ndigits with O => None | _ => Some (acc, ndigits, s) end in
  match s with
  | [] => stop
  | c :: r =>
      match sym c with
      | Underscore => if prev_us then None else scan_digits r true ndigits acc
      | Digit d => scan_digits r false (S ndigits) (10 * acc + d)
      | _ => stop
      end
  end.

(** An optional sign at the head of the literal. *)
Definition strip_sign (s : Text) : Z * Text :=
  match s with
  | c :: r =>
      match sym c with
      | Plus => (1, r)
      | Minus => (-1, r)
      | _ => (1, s)
      end
  | [] => (1, s)
  end.

Definition starts_with_underscore (s : Text) : bool :=
  match s with
  | c :: _ => match sym c with Underscore => true | _ => false end
  | [] => false
  end.

(** [sys.get_int_max_str_digits()]: the default, which the module does
    not change. *)
Definition max_str_digits : Z := 4300.

Inductive IntResult : Type :=
  | IntOk (n : Z)
  | IntInvalid
  | IntTooLong (ndigits : nat).

(** [int(s)] with the default base: spaces, an optional sign, digits with
    single underscores between them, spaces, and nothing else; and no
    more digits than the limit, which is checked when the digits have
    been scanned and before what follows them is looked at. *)
Definition parse_result (s : Text) : IntResult :=
  let '(sign, s2) := strip_sign (skip_spaces s) in
  if starts_with_underscore s2 then IntInvalid
  else
    match scan_digits s2 false O 0 with
    | Some (n, k, rest) =>
        if max_str_digits <? Z.of_nat k then IntTooLong k
        else
          match skip_spaces rest with
          | [] => IntOk (sign * n)
          | _ => IntInvalid
          end
    | None => IntInvalid
    end.

(** The integer [int(s)] returns; [None] stands for its [ValueError]. *)
Definition parse_int (s : Text) : option Z :=
  match parse_result s with
  | IntOk n => Some n
  | _ => None
  end.

Definition int (s : Text) : Outcome Z :=
  match parse_result s with
  | IntOk n => Returned n
  | IntInvalid =>
      Raised (mkExc ValueError
                ("invalid literal for int() with base 10: " ++ repr200 s))
  | IntTooLong k =>
      Raised (mkExc ValueError
                ("Exceeds the limit (4300 digits) for integer string conversion: "
                 ++ "value has " ++ str_int (Z.of_nat k)
                 ++ " digits; use sys.set_int_max_str_digits() to increase the limit"))
  end.

(** *** The literals of [int], declaratively

    The grammar of the language reference: a literal is a digit followed
    by digits, each of which one underscore may precede; [int] takes one
    with a sign before it and spaces around it. *)

Fixpoint all_space (s : Text) : bool :=
  match s with
  | [] => true
  | c :: r => isspace c && all_space r
  end.




End Int.

End Py.

Import Py.

(** ** The outside of the process *)

(** The logging levels the module uses, with their numeric values. *)
Inductive Level : Type := DEBUG | INFO | WARNING.

Definition levelno (l : Level) : Z :=
  match l with DEBUG => 10 | INFO => 20 | WARNING => 30 end.

Record LogRecord : Type := mkLogRecord { levelname : Level; msg : string }.

(** [httpx.Timeout(t)]: the same bound, in seconds, on each of the four
    phases of an exchange. *)
Record Timeout : Type := mkTimeout {
  connect : option Q;
  read : option Q;
  write : option Q;
  pool : option Q
}.

Definition httpx_Timeout (t : Q) : Timeout :=
  mkTimeout (Some t) (Some t) (Some t) (Some t).

(** What a call of the client sends: the method, the URL, the headers the
    caller passes and the timeout in force for the call. *)
Record Request : Type := mkRequest {
  method : string;
  url : string;
  headers : list (string * string);
  timeout : Timeout
}.

Record Response : Type := mkResponse { status_code : Z }.

(** The world fixes what the logging handlers do with a record ([None]:
    the record is written; [Some e]: the call raises [e]) and how an
    exchange with the upstream server ends.  The end of an exchange
    includes what the HTTP library does on the way, its own log records
    too: a handler that raises on one of them makes the call of the
    client raise. *)
Record World : Type := mkWorld {
  emit : LogRecord -> option Exc;
  send : Request -> Outcome Response
}.

(** The events of the module itself: the records its own logger writes
    and the requests it hands to the client.  The records that the HTTP
    library writes during an exchange are not listed. *)
Inductive Event : Type :=
  | Logged (r : LogRecord)
  | Sent (q : Request).

Definition Trace : Type := list Event.

(** ** Computations *)

Definition M (A : Type) : Type := Trace -> Outcome A * Trace.

Definition ret {A} (a : A) : M A := fun tr => (Returned a, tr).

Definition bind {A B} (m : M A) (k : A -> M B) : M B :=
  fun tr =>
    match m tr with
    | (Returned a, tr') => k a tr'
    | (Raised e, tr') => (Raised e, tr')
    end.

Definition raise {A} (e : Exc) : M A := fun tr => (Raised e, tr).

(** [try: body / except Exception as e: handler e].  An exception that is
    not an instance of [Exception] passes through. *)
Definition try_except_Exception {A} (body : M A) (handler : Exc -> M A) : M A :=
  fun tr =>
    match body tr with
    | (Returned a, tr') => (Returned a, tr')
    | (Raised e, tr') =>
        if isinstance_Exception e then handler e tr' else (Raised e, tr')
    end.

Notation "x <- m ;; k" := (bind m (fun x => k))
  (at level 61, m at next level, right associativity).
Notation "m ;;; k" := (bind m (fun _ => k))
  (at level 61, right associativity).

(** ** Module initialisation (lines 12-32) *)

(** [os.environ], as [os.getenv] reads it. *)
Definition Environ : Type := string -> option Text.

Definition getenv (env : Environ) (name : string) (default : Text) : Text :=
  match env name with
  | Some v => v
  | None => default
  end.

(** The module's globals.  They are bound once, when the module is
    imported, and no function of the module assigns them. *)
Record Globals : Type := mkGlobals {
  LOG_LEVEL : Level;       (* the level given to [logging.basicConfig] *)
  PORT_HEALTH : Z;
  PORT : Z;
  OLLAMA_URL : string;
  client : Timeout         (* the client's default timeout *)
}.

Definition import_module {R : Runtime} (env : Environ) : Outcome Globals :=
  let level :=
    match env "LOG_LEVEL" with
    | Some v => if text_eqb v "DEBUG" then DEBUG else INFO
    | None => INFO
    end in
  match int (getenv env "PORT_HEALTH" "8080") with
  | Raised e => Raised e
  | Returned port_health =>
      match int (getenv env "PORT" "80") with
      | Raised e => Raised e
      | Returned port =>
          Returned (mkGlobals level port_health port
                      ("http://localhost:" ++ str_int port)
                      (httpx_Timeout 2))
      end
  end.



(** ** The logger (line 17) and the client (line 32) *)

Section Handler.

Variable g : Globals.
Variable w : World.

Definition isEnabledFor (l : Level) : bool := levelno (LOG_LEVEL g) <=? levelno l.

(** [logger.log(l, text)]: nothing happens below the configured level;
    above it the record goes to the handlers, which write it or raise. *)
Definition logger_log (l : Level) (text : string) : M unit :=
  if isEnabledFor l then
    let r := mkLogRecord l text in
    match emit w r with
    | None => fun tr => (Returned tt, (tr ++ [Logged r])%list)
    | Some e => raise e
    end
  else ret tt.

Definition logger_debug : string -> M unit := logger_log DEBUG.
Definition logger_warning : string -> M unit := logger_log WARNING.

(** [await client.head(u, timeout=t)]: one [HEAD] request with no header
    of the caller's; the timeout of the call replaces the client's.  What
    the client does with the request, the records the HTTP library logs
    on the way included, is the [send] of the world. *)
Definition client_head (u : string) (t : option Q) : M Response :=
  let q := mkRequest "HEAD" u []
             (match t with Some s => httpx_Timeout s | None => client g end) in
  fun tr => (send w q, (tr ++ [Sent q])%list).

(** ** The handler (lines 44-66) *)

(** The dictionary the handler returns, in the order of its keys. *)
Definition Dict : Type := list (string * string).

Fixpoint dict_get (d : Dict) (k : string) : option string :=
  match d with
  | [] => None
  | (k', v) :: d' => if String.eqb k k' then Some v else dict_get d' k
  end.

(** The body of the [try] statement (lines 55-62). *)
Definition try_body : M Dict :=
  response <- client_head (OLLAMA_URL g ++ "/") (Some 2%Q) ;;
  if status_code response =? 200 then
    logger_debug "Health check: Ollama reachable" ;;;
    ret [("status", "healthy"); ("ollama", "reachable")]
  else
    logger_warning ("Health check: Ollama degraded (status "
                    ++ str_int (status_code response) ++ ")") ;;;
    ret [("status", "healthy"); ("ollama", "degraded")].

(** The [except Exception as e] clause (lines 64-66). *)
Definition except_clause (e : Exc) : M Dict :=
  logger_warning ("Health check: Ollama not ready: " ++ str_exc e) ;;;
  ret [("status", "healthy"); ("ollama", "initializing")].

Definition health_check : M Dict :=
  logger_debug "GET /ping - Health check request" ;;;
  try_except_Exception try_body except_clause.

(** ** The route (line 44) *)

Record HttpResponse : Type := mkHttpResponse {
  http_status : Z;
  json : option Dict
}.

(** What the framework does with the end of a handler: the returned
    dictionary is sent as JSON with status 200; for an instance of
    [Exception] the "Internal Server Error" answer, status 500, is sent;
    any other exception leaves the framework with no answer sent. *)
Definition respond (o : Outcome Dict) : Outcome HttpResponse :=
  match o with
  | Returned d => Returned (mkHttpResponse 200 (Some d))
  | Raised e =>
      if isinstance_Exception e then Returned (mkHttpResponse 500 None)
      else Raised e
  end.

(** [GET /ping] *)
Definition get_ping : Trace -> Outcome HttpResponse * Trace :=
  fun tr => let '(o, tr') := health_check tr in (respond o, tr').

End Handler.

(** ** Vocabulary of the statements *)

(** The request the handler sends on a probe (line 55). *)
Definition probe_request (g : Globals) : Request :=
  mkRequest "HEAD" (OLLAMA_URL g ++ "/") [] (httpx_Timeout 2).

(** The requests recorded in a trace, in order. *)
Fixpoint requests (tr : Trace) : list Request :=
  match tr with
  | [] => []
  | Sent q :: tr' => q :: requests tr'
  | Logged _ :: tr' => requests tr'
  end.

(** The logging handlers write every record. *)
Definition quiet (w : World) : Prop := forall r, emit w r = None.

(** Whatever an exchange raises is an error, an instance of [Exception]:
    so are all the exceptions of httpx and all built-in errors. *)
Definition errors_only (w : World) : Prop :=
  forall q e, send w q = Raised e -> isinstance_Exception e = true.

(** A logging call made by the module with text [text] at level [l] writes
    its record or is below the configured level. *)
Definition passes (g : Globals) (w : World) (l : Level) (text : string) : Prop :=
  isEnabledFor g l = true -> emit w (mkLogRecord l text) = None.

(** A computation is oblivious when its outcome is the same from every
    trace. *)
Definition oblivious {A} (m : M A) : Prop :=
  forall tr tr', fst (m tr) = fst (m tr').

(** The three-valued upstream status of the specification, its
    classification of the end of an exchange, and the names it gives the
    three values in the response. *)
Inductive UpstreamStatus : Type := Reachable | Degraded | Unreachable.

Definition classify (o : Outcome Response) : UpstreamStatus :=
  match o with
  | Returned r => if status_code r =? 200 then Reachable else Degraded
  | Raised _ => Unreachable
  end.

Definition external_name (u : UpstreamStatus) : string :=
  match u with
  | Reachable => "reachable"
  | Degraded => "degraded"
  | Unreachable => "initializing"
  end.

(** ** Sample environments and worlds *)

Definition empty_environ : Environ := fun _ => None.

(** A runtime for the sample runs: of the decimal digits beyond ASCII it
    has the Arabic-Indic ones (code points 1632 to 1641) only; its [repr]
    is that of the interpreter on a text of printable ASCII characters
    with no quote and no backslash, and a stand-in on any other.  No
    theorem depends on it. *)
Definition excerpt_todecimal (c : N) : option DecimalDigit :=
  if ((1632 <=? c) && (c <=? 1641))%N then
    match (c - 1632)%N with
    | 0 => Some Zero | 1 => Some One | 2 => Some Two | 3 => Some Three
    | 4 => Some Four | 5 => Some Five | 6 => Some Six | 7 => Some Seven
    | 8 => Some Eight | _ => Some Nine
    end%N
  else None.

Definition plain (c : N) : bool :=
  ((32 <=? c) && (c <=? 126) && negb (c =? 39) && negb (c =? 92))%N.

Definition excerpt_repr200 (s : Text) : string :=
  if forallb plain s
  then substring 0 200 ("'" ++ string_of_list_ascii (List.map ascii_of_N s) ++ "'")
  else "'...'".

#[global] Instance excerpt : Runtime :=
  {| todecimal := excerpt_todecimal; repr200 := excerpt_repr200 |}.


(** The globals of a process started with none of the variables set. *)
Definition default_globals : Globals :=
  mkGlobals INFO 8080 80 "http://localhost:80" (httpx_Timeout 2).

(** The same with [LOG_LEVEL=DEBUG]. *)
Definition debug_globals : Globals :=
  mkGlobals DEBUG 8080 80 "http://localhost:80" (httpx_Timeout 2).

Definition writes_all : LogRecord -> option Exc := fun _ => None.

(** Handlers that fail on every record, as a handler without error
    handling of its own does on a full disk. *)
Definition disk_full : LogRecord -> option Exc :=
  fun _ => Some (mkExc OSError "[Errno 28] No space left on device").

(** Handlers that fail on the records below [WARNING] only. *)
Definition fails_below_warning : LogRecord -> option Exc :=
  fun r =>
    match levelname r with
    | WARNING => None
    | _ => Some (mkExc OSError "[Errno 28] No space left on device")
    end.

Definition answers (code : Z) : Request -> Outcome Response :=
  fun _ => Returned (mkResponse code).

Definition refuses : Request -> Outcome Response :=
  fun _ => Raised (mkExc ConnectError "All connection attempts failed").

Definition hangs : Request -> Outcome Response :=
  fun _ => Raised (mkExc ReadTimeout "").

(** The task that runs the handler is cancelled while it awaits the
    exchange. *)
Definition cancelled : Request -> Outcome Response :=
  fun _ => Raised (mkExc CancelledError "").

(** Handlers that fail on the records with one given text. *)
Definition fails_on (text : string) : LogRecord -> option Exc :=
  fun r =>
    if String.eqb (msg r) text
    then Some (mkExc OSError "[Errno 28] No space left on device")
    else None.

(** ** The start-up hook (lines 34-37) *)

Definition logger_info (g : Globals) (w : World) : string -> M unit :=
  logger_log g w INFO.

Definition startup_event (g : Globals) (w : World) : M unit :=
  logger_info g w ("Starting Health Server on port " ++ str_int (PORT_HEALTH g)) ;;;
  logger_info g w ("Monitoring Ollama at " ++ OLLAMA_URL g).

(** ** More vocabulary *)

(** The records written in a trace, in order, and those at [WARNING]. *)
Fixpoint records (tr : Trace) : list LogRecord :=
  match tr with
  | [] => []
  | Logged r :: tr' => r :: records tr'
  | Sent _ :: tr' => records tr'
  end.

Definition is_warning (r : LogRecord) : bool :=
  match levelname r with WARNING => true | _ => false end.

Definition warnings (tr : Trace) : list LogRecord :=
  filter is_warning (records tr).

(** [os.environ] with one variable set. *)
Definition setenv (env : Environ) (name : string) (value : Text) : Environ :=
  fun k => if String.eqb k name then Some value else env k.

(** The records a probe writes and the request it sends when no logging
    call raises, by the end of the exchange. *)
Definition probe_events (g : Globals) (o : Outcome Response) : Trace :=
  ((if isEnabledFor g DEBUG
    then [Logged (mkLogRecord DEBUG "GET /ping - Health check request")]
    else []) ++
   [Sent (probe_request g)] ++
   match o with
   | Returned r =>
       if status_code r =? 200 then
         if isEnabledFor g DEBUG
         then [Logged (mkLogRecord DEBUG "Health check: Ollama reachable")]
         else []
       else
         [Logged (mkLogRecord WARNING
                    ("Health check: Ollama degraded (status "
                     ++ str_int (status_code r) ++ ")"))]
   | Raised e =>
       if isinstance_Exception e
       then [Logged (mkLogRecord WARNING
                       ("Health check: Ollama not ready: " ++ str_exc e))]
       else []
   end)%list.

(** * Properties *)

(** ** Sample runs of [int] and [str] *)

Example int_8080 : parse_int "8080" = Some 8080.
Proof. reflexivity. Qed.
Example int_spaces_sign : parse_int "  -12_345 " = Some (-12345).
Proof. reflexivity. Qed.
Example int_leading_zeros : parse_int "+007" = Some 7.
Proof. reflexivity. Qed.
Example int_empty : parse_int "" = None.
Proof. reflexivity. Qed.
Example int_word : parse_int "http" = None.
Proof. reflexivity. Qed.
Example int_float : parse_int "80.0" = None.
Proof. reflexivity. Qed.
Example int_hex : parse_int "0x50" = None.
Proof. reflexivity. Qed.
Example int_two_underscores : parse_int "8__0" = None.
Proof. reflexivity. Qed.
Example int_trailing_underscore : parse_int "80_" = None.
Proof. reflexivity. Qed.
Example int_leading_underscore : parse_int "_80" = None.
Proof. reflexivity. Qed.
Example int_sign_only : parse_int "-" = None.
Proof. reflexivity. Qed.
Example int_arabic_indic : parse_int [1640; 1632]%N = Some 80.
Proof. reflexivity. Qed.
Example int_unicode_spaces : parse_int [160; 53; 8195]%N = Some 5.
Proof. reflexivity. Qed.
Example int_file_separator : parse_int [28; 53]%N = None.
Proof. reflexivity. Qed.
Example int_word_raises :
  int "http" =
  Raised (mkExc ValueError "invalid literal for int() with base 10: 'http'").
Proof. reflexivity. Qed.
Example str_int_neg : str_int (-80) = "-80".
Proof. reflexivity. Qed.
Example str_int_zero : str_int 0 = "0".
Proof. reflexivity. Qed.

(** ** [int] and [str] *)

Section IntFacts.

Context {R : Runtime}.

#[local] Open Scope list_scope.

(** *** The classes of code points *)

Ltac split_sym :=
  unfold sym, sym_of_ascii;
  repeat match goal with
  | |- context [if ?b then _ else _] => destruct b eqn:?
  | |- context [match todecimal ?c with _ => _ end] => destruct (todecimal c)
  end.




Lemma sym_digit_range c d : sym c = Digit d -> 0 <= d <= 9.
Proof.
  split_sym; intros H; try discriminate H; injection H as <-.
  - match goal with H : (_ && _)%bool = true |- _ =>
      apply andb_prop in H as [H1 H2] end.
    apply N.leb_le in H1, H2. lia.
  - match goal with d : DecimalDigit |- _ => destruct d end; cbn; lia.
Qed.

Lemma isspace_sym c : isspace c = true -> sym c = Space.
Proof. unfold isspace. destruct (sym c); try discriminate; reflexivity. Qed.


(** *** Spaces *)


Lemma skip_spaces_empty s : skip_spaces s = [] -> all_space s = true.
Proof.
  induction s as [|c r IH]; [reflexivity|]. cbn [skip_spaces all_space].
  destruct (isspace c); [exact IH | discriminate].
Qed.

Lemma all_space_skip s : all_space s = true -> skip_spaces s = [].
Proof.
  induction s as [|c r IH]; [reflexivity|]. cbn [skip_spaces all_space].
  destruct (isspace c); [exact IH | discriminate].
Qed.

Lemma skip_spaces_app ws s :
  all_space ws = true -> skip_spaces (ws ++ s) = skip_spaces s.
Proof.
  induction ws as [|c r IH]; [reflexivity|]. cbn [skip_spaces all_space List.app].
  destruct (isspace c); [exact IH | discriminate].
Qed.

Lemma all_space_app a b :
  all_space a = true -> all_space b = true -> all_space (a ++ b) = true.
Proof.
  induction a as [|x a IH]; intros Ha Hb; [exact Hb|].
  cbn [List.app all_space] in *. apply andb_prop in Ha as [Hx Ha].
  now rewrite Hx, IH.
Qed.

(** Spaces after a text that is not blank stay where they are. *)
Lemma skip_spaces_app_r s b :
  skip_spaces s <> [] -> skip_spaces (s ++ b) = (skip_spaces s ++ b)%list.
Proof.
  induction s as [|c r IH]; intros H; [now contradiction H|].
  cbn [skip_spaces List.app] in *. destruct (isspace c); [now apply IH | reflexivity].
Qed.

(** *** The scan *)



(** Spaces after the text do not change what the scan reads. *)
Lemma scan_digits_app s b :
  all_space b = true ->
  forall p k acc n k' rest,
    scan_digits s p k acc = Some (n, k', rest) ->
    scan_digits (s ++ b) p k acc = Some (n, k', (rest ++ b)%list).
Proof.
  intros Hb. induction s as [|c r IH]; intros p k acc n k' rest H.
  - cbn [scan_digits] in H. destruct p; [discriminate|].
    destruct k; [discriminate|]. injection H as <- <- <-.
    cbn [List.app]. destruct b as [|x b']; [reflexivity|].
    cbn [all_space] in Hb. apply andb_prop in Hb as [Hx _].
    cbn [scan_digits]. now rewrite (isspace_sym x Hx).
  - cbn [scan_digits List.app] in *. destruct (sym c).
    1,2,3,6: destruct p; [discriminate|]; destruct k; [discriminate|];
      now injection H as <- <- <-.
    + destruct p; [discriminate|]. now apply IH.
    + now apply IH.
Qed.

(** The scan counts the digits and its value stays below the power of ten
    of the count. *)
Lemma scan_digits_bound s :
  forall p k acc n k' rest,
    scan_digits s p k acc = Some (n, k', rest) ->
    0 <= acc < 10 ^ Z.of_nat k ->
    0 <= n < 10 ^ Z.of_nat k'.
Proof.
  induction s as [|c r IH]; intros p k acc n k' rest H Hacc; cbn [scan_digits] in H.
  - destruct p; [discriminate|]. destruct k; [discriminate|].
    now injection H as <- <- _.
  - destruct (sym c) eqn:Hc.
    1,2,3,6: destruct p; [discriminate|]; destruct k; [discriminate|];
      now injection H as <- <- _.
    + destruct p; [discriminate|]. exact (IH _ _ _ _ _ _ H Hacc).
    + apply (IH _ _ _ _ _ _ H).
      pose proof (sym_digit_range c d Hc).
      rewrite Nat2Z.inj_succ, Z.pow_succ_r by lia. lia.
Qed.

(** *** The sign *)


(** *** [int] reads literals and nothing else *)





End IntFacts.

Section StrInt.

Context {R : Runtime}.

#[local] Open Scope list_scope.

(** *** [int] on what [str] writes *)

Ltac step_digit :=
  cbn [NilEmpty.string_of_uint text_of_string list_ascii_of_string List.map];
  match goal with
  | |- context [N_of_ascii ?a] =>
      let c := eval vm_compute in (N_of_ascii a) in
      change (N_of_ascii a) with c
  end;
  cbn [scan_digits];
  match goal with
  | |- context [sym ?c] =>
      let v := eval cbv in (sym_of_ascii c) in
      change (sym c) with v
  end;
  cbv iota;
  match goal with
  | |- context [List.map N_of_ascii (list_ascii_of_string ?s)] =>
      change (List.map N_of_ascii (list_ascii_of_string s)) with (text_of_string s)
  end.

Lemma scan_uint_acc d : forall k a,
  scan_digits (NilEmpty.string_of_uint d) false (S k) (Zpos a) =
  Some (Zpos (Pos.of_uint_acc d a), (S k + nb_digits d)%nat, []).
Proof.
  induction d; intros k a; cbn [Pos.of_uint_acc nb_digits];
    [cbn; now rewrite Nat.add_0_r|..];
    step_digit;
    match goal with
    | |- scan_digits _ false _ ?v = Some (Z.pos (Pos.of_uint_acc _ ?p), _, _) =>
        replace v with (Z.pos p) by lia
    end; rewrite IHd, Nat.add_succ_r; reflexivity.
Qed.

Lemma scan_uint_zero d : forall k,
  scan_digits (NilEmpty.string_of_uint d) false (S k) 0 =
  Some (Z.of_uint d, (S k + nb_digits d)%nat, []).
Proof.
  unfold Z.of_uint.
  induction d; intros k; cbn [Pos.of_uint nb_digits];
    [cbn; now rewrite Nat.add_0_r|..];
    step_digit; rewrite Z.mul_0_r, Z.add_0_l;
    [rewrite IHd | rewrite scan_uint_acc ..]; rewrite Nat.add_succ_r; reflexivity.
Qed.

Lemma scan_uint d :
  d <> Nil ->
  scan_digits (NilEmpty.string_of_uint d) false O 0 =
  Some (Z.of_uint d, nb_digits d, []).
Proof.
  intros Hd.
  destruct d; [contradiction|..]; cbn [nb_digits];
    step_digit; rewrite Z.mul_0_r, Z.add_0_l;
    [rewrite scan_uint_zero | unfold Z.of_uint; cbn [Pos.of_uint]; rewrite scan_uint_acc ..];
    reflexivity.
Qed.

(** [str] writes no zero at the head of a positive number. *)
Lemma nzhead_not_D0 d d' : nzhead d <> D0 d'.
Proof. induction d; cbn [nzhead]; try discriminate; exact IHd. Qed.

Lemma to_uint_head p : forall d', Pos.to_uint p <> D0 d'.
Proof.
  intros d' H.
  pose proof (DecimalPos.Unsigned.to_of (Pos.to_uint p)) as Hn.
  rewrite DecimalPos.Unsigned.of_to in Hn. cbn [N.to_uint] in Hn.
  unfold unorm in Hn. destruct (nzhead (Pos.to_uint p)) eqn:Hz.
  - exact (DecimalPos.Unsigned.to_uint_nonzero p Hn).
  - exact (nzhead_not_D0 _ _ Hz).
  - rewrite H in Hn; discriminate Hn.
  - rewrite H in Hn; discriminate Hn.
  - rewrite H in Hn; discriminate Hn.
  - rewrite H in Hn; discriminate Hn.
  - rewrite H in Hn; discriminate Hn.
  - rewrite H in Hn; discriminate Hn.
  - rewrite H in Hn; discriminate Hn.
  - rewrite H in Hn; discriminate Hn.
  - rewrite H in Hn; discriminate Hn.
Qed.

(** The number of digits [str] writes for a positive number. *)
Lemma of_uint_acc_lower d : forall a,
  Z.pos a * 10 ^ Z.of_nat (nb_digits d) <= Z.pos (Pos.of_uint_acc d a).
Proof.
  induction d; intros a; cbn [Pos.of_uint_acc nb_digits];
    [rewrite Z.pow_0_r; lia|..];
    (eapply Z.le_trans; [|apply IHd]);
    rewrite Nat2Z.inj_succ, Z.pow_succ_r by lia;
    pose proof (Z.pow_nonneg 10 (Z.of_nat (nb_digits d)) ltac:(lia)); nia.
Qed.

Lemma to_uint_lower p :
  10 ^ (Z.of_nat (nb_digits (Pos.to_uint p)) - 1) <= Z.pos p.
Proof.
  pose proof (DecimalPos.Unsigned.of_to p) as Hp.
  pose proof (to_uint_head p) as Hh.
  pose proof (DecimalPos.Unsigned.to_uint_nonnil p) as Hn.
  destruct (Pos.to_uint p) as [|d|d|d|d|d|d|d|d|d|d];
    [contradiction | exfalso; exact (Hh d eq_refl) |..];
    cbn [Pos.of_uint nb_digits] in Hp |- *; injection Hp as <-;
    rewrite Nat2Z.inj_succ;
    replace (Z.succ (Z.of_nat (nb_digits d)) - 1) with (Z.of_nat (nb_digits d)) by lia;
    (eapply Z.le_trans; [|apply of_uint_acc_lower]);
    pose proof (Z.pow_nonneg 10 (Z.of_nat (nb_digits d)) ltac:(lia)); nia.
Qed.


(** [int] on a text that begins with a digit, and on one that begins
    with a minus sign and a digit. *)
Lemma parse_result_unsigned c r d :
  sym c = Digit d ->
  parse_result (c :: r) =
  match scan_digits (c :: r) false O 0 with
  | Some (n, k, rest) =>
      if max_str_digits <? Z.of_nat k then IntTooLong k
      else
        match skip_spaces rest with
        | [] => IntOk (1 * n)
        | _ => IntInvalid
        end
  | None => IntInvalid
  end.
Proof.
  intros Hd. unfold parse_result. cbn [skip_spaces]. unfold isspace. rewrite Hd.
  cbn [strip_sign]. rewrite Hd. cbn [starts_with_underscore]. now rewrite Hd.
Qed.

Lemma parse_result_minus c r d :
  sym c = Digit d ->
  parse_result (45%N :: c :: r) =
  match scan_digits (c :: r) false O 0 with
  | Some (n, k, rest) =>
      if max_str_digits <? Z.of_nat k then IntTooLong k
      else
        match skip_spaces rest with
        | [] => IntOk (-1 * n)
        | _ => IntInvalid
        end
  | None => IntInvalid
  end.
Proof.
  intros Hd. unfold parse_result. cbn [skip_spaces].
  change (isspace 45) with false. cbv iota. cbn [strip_sign].
  change (sym 45) with Minus. cbv iota.
  cbn [starts_with_underscore]. now rewrite Hd.
Qed.

Lemma string_of_uint_first d :
  d <> Nil ->
  exists c r v,
    text_of_string (NilEmpty.string_of_uint d) = c :: r /\ sym c = Digit v.
Proof.
  intros Hd. destruct d; [contradiction|..];
    cbn [NilEmpty.string_of_uint text_of_string list_ascii_of_string List.map];
    do 3 eexists; split; reflexivity.
Qed.

(** What [int] makes of the text [str] writes for an integer [n]: [n],
    unless the text has more digits than the limit. *)
Lemma parse_result_str_int n :
  exists k,
    (n <> 0 -> 10 ^ (Z.of_nat k - 1) <= Z.abs n < 10 ^ Z.of_nat k) /\
    parse_result (str_int n) =
      if max_str_digits <? Z.of_nat k then IntTooLong k else IntOk n.
Proof.
  unfold str_int. destruct n as [|p|p]; cbn [Z.to_int NilEmpty.string_of_int].
  - exists 1%nat. split; [intros H; now contradiction H | reflexivity].
  - pose proof (DecimalPos.Unsigned.to_uint_nonnil p) as Hd.
    destruct (string_of_uint_first _ Hd) as (c & r & v & Hs & Hv).
    pose proof (scan_uint _ Hd) as H.
    pose proof (DecimalZ.of_to (Z.pos p)) as Hof.
    cbn [Z.to_int Z.of_int] in Hof.
    exists (nb_digits (Pos.to_uint p)). split.
    + intros _. split; [apply to_uint_lower|].
      rewrite Hs in H. rewrite Hof in H.
      apply (scan_digits_bound _ _ _ _ _ _ _ H). cbn. lia.
    + rewrite Hs in *. rewrite (parse_result_unsigned c r v Hv), H.
      cbn [skip_spaces]. rewrite Hof.
      destruct (max_str_digits <? _); [reflexivity | f_equal; lia].
  - pose proof (DecimalPos.Unsigned.to_uint_nonnil p) as Hd.
    destruct (string_of_uint_first _ Hd) as (c & r & v & Hs & Hv).
    pose proof (scan_uint _ Hd) as H.
    pose proof (DecimalZ.of_to (Z.pos p)) as Hof.
    cbn [Z.to_int Z.of_int] in Hof.
    exists (nb_digits (Pos.to_uint p)). split.
    + intros _. split; [apply to_uint_lower|].
      rewrite Hs in H. rewrite Hof in H.
      apply (scan_digits_bound _ _ _ _ _ _ _ H). cbn. lia.
    + cbn [text_of_string list_ascii_of_string List.map].
      change (N_of_ascii "-") with 45%N.
      change (List.map N_of_ascii (list_ascii_of_string (NilEmpty.string_of_uint (Pos.to_uint p))))
        with (text_of_string (NilEmpty.string_of_uint (Pos.to_uint p))).
      rewrite Hs in *. rewrite (parse_result_minus c r v Hv), H.
      cbn [skip_spaces]. rewrite Hof.
      destruct (max_str_digits <? _); [reflexivity | f_equal; lia].
Qed.

(** The limit on digits as a bound on integers. *)
Lemma pow10_le_limit k : k <= 4300 -> 10 ^ k <= 10 ^ 4300.
Proof. intros H. apply Z.pow_le_mono_r; lia. Qed.

Lemma limit_le_pow10 k : 4300 <= k -> 10 ^ 4300 <= 10 ^ k.
Proof. intros H. apply Z.pow_le_mono_r; lia. Qed.

Ltac hide_limit :=
  let L := fresh "L" in
  let HL := fresh "HL" in
  remember (10 ^ 4300) as L eqn:HL; clear HL.

(** [int(str(n)) == n] for every integer within the limit on digits. *)
Lemma parse_int_str_int n :
  Z.abs n < 10 ^ 4300 -> parse_int (str_int n) = Some n.
Proof.
  intros Hn. destruct (Z.eq_dec n 0) as [->|Hz]; [reflexivity|].
  destruct (parse_result_str_int n) as (k & Hk & Hp).
  unfold parse_int. rewrite Hp.
  destruct (max_str_digits <? Z.of_nat k) eqn:Hlt; [|reflexivity].
  exfalso. apply Z.ltb_lt in Hlt. unfold max_str_digits in Hlt.
  destruct (Hk Hz) as [Hlo _].
  pose proof (limit_le_pow10 (Z.of_nat k - 1) ltac:(lia)).
  hide_limit. lia.
Qed.

(** Every integer [int] returns is within the limit. *)
Lemma strip_sign_unit s : fst (strip_sign s) = 1 \/ fst (strip_sign s) = -1.
Proof.
  destruct s as [|c r]; [now left|]. cbn [strip_sign].
  destruct (sym c); cbn [fst]; auto.
Qed.

Lemma parse_int_bound s n : parse_int s = Some n -> Z.abs n < 10 ^ 4300.
Proof.
  unfold parse_int, parse_result. intros H.
  pose proof (strip_sign_unit (skip_spaces s)) as Hsg.
  destruct (strip_sign (skip_spaces s)) as [sign s2]. cbn [fst] in Hsg.
  destruct (starts_with_underscore s2); [discriminate|].
  destruct (scan_digits s2 false 0 0) as [[[v k] rest]|] eqn:Hscan; [|discriminate].
  destruct (max_str_digits <? Z.of_nat k) eqn:Hlt; [discriminate|].
  destruct (skip_spaces rest); [|discriminate].
  injection H as <-. apply Z.ltb_ge in Hlt. unfold max_str_digits in Hlt.
  assert (Hv : 0 <= v < 10 ^ Z.of_nat k).
  { apply (scan_digits_bound _ _ _ _ _ _ _ Hscan). cbn. lia. }
  pose proof (pow10_le_limit (Z.of_nat k) Hlt) as Hle.
  hide_limit. destruct Hsg as [-> | ->]; lia.
Qed.

(** *** Spaces around a text *)

Lemma parse_int_blank s : all_space s = true -> parse_int s = None.
Proof.
  intros H. unfold parse_int, parse_result. now rewrite (all_space_skip s H).
Qed.

Lemma strip_sign_app s b :
  s <> [] ->
  strip_sign (s ++ b) = (fst (strip_sign s), snd (strip_sign s) ++ b).
Proof.
  destruct s as [|c r]; [intros H; now contradiction H|]. intros _.
  cbn [strip_sign List.app]. destruct (sym c); reflexivity.
Qed.

Lemma starts_with_underscore_app s b :
  s <> [] -> starts_with_underscore (s ++ b) = starts_with_underscore s.
Proof. destruct s; [intros H; now contradiction H | reflexivity]. Qed.

(** Spaces around a text that [int] reads do not change what it reads. *)
Lemma parse_int_padded a s b n :
  all_space a = true -> all_space b = true ->
  parse_int s = Some n ->
  parse_int (a ++ s ++ b) = Some n.
Proof.
  intros Ha Hb Hs. unfold parse_int, parse_result in *.
  rewrite (skip_spaces_app _ _ Ha).
  assert (H1 : skip_spaces s <> []).
  { intros E. rewrite E in Hs. discriminate Hs. }
  rewrite (skip_spaces_app_r s b H1), (strip_sign_app _ b H1).
  destruct (strip_sign (skip_spaces s)) as [sign s2]. cbn [fst snd].
  assert (H2 : s2 <> []).
  { intros ->. discriminate Hs. }
  rewrite (starts_with_underscore_app s2 b H2).
  destruct (starts_with_underscore s2); [discriminate|].
  destruct (scan_digits s2 false 0 0) as [[[v k] rest]|] eqn:Hscan; [|discriminate].
  rewrite (scan_digits_app s2 b Hb _ _ _ _ _ _ Hscan).
  destruct (max_str_digits <? Z.of_nat k); [discriminate|].
  destruct (skip_spaces rest) eqn:Hrest; [|discriminate].
  rewrite (all_space_skip (rest ++ b)); [exact Hs|].
  apply all_space_app; [now apply skip_spaces_empty | exact Hb].
Qed.

(** *** A one and zeros *)






(** *** [int] by [parse_int], and [==] on texts *)

Lemma int_parse_int s :
  match parse_int s with
  | Some n => int s = Returned n
  | None => exists e, int s = Raised e /\ exc_class e = ValueError
  end.
Proof.
  unfold parse_int, int.
  destruct (parse_result s); [reflexivity | |]; eexists; split; reflexivity.
Qed.

Lemma text_eqb_eq a : forall b, text_eqb a b = true <-> a = b.
Proof.
  induction a as [|x a IH]; intros [|y b]; cbn [text_eqb];
    try (split; [discriminate | discriminate]); [split; reflexivity|].
  rewrite andb_true_iff, N.eqb_eq, IH. split.
  - intros [-> ->]. reflexivity.
  - intros H. injection H as -> ->. split; reflexivity.
Qed.

Lemma text_eqb_neq a b : a <> b -> text_eqb a b = false.
Proof.
  intros H. destruct (text_eqb a b) eqn:E; [|reflexivity].
  exfalso. apply H. now apply text_eqb_eq.
Qed.

(** *** The module initialisation by [parse_int] *)

Lemma import_module_cases env :
  match parse_int (getenv env "PORT_HEALTH" "8080"),
        parse_int (getenv env "PORT" "80") with
  | Some ph, Some p =>
      import_module env =
      Returned (mkGlobals
                  match env "LOG_LEVEL" with
                  | Some v => if text_eqb v "DEBUG" then DEBUG else INFO
                  | None => INFO
                  end
                  ph p ("http://localhost:" ++ str_int p)%string (httpx_Timeout 2))
  | _, _ => exists e, import_module env = Raised e /\ exc_class e = ValueError
  end.
Proof.
  unfold import_module.
  pose proof (int_parse_int (getenv env "PORT_HEALTH" "8080")) as H1.
  pose proof (int_parse_int (getenv env "PORT" "80")) as H2.
  destruct (parse_int (getenv env "PORT_HEALTH" "8080")) as [ph|].
  - rewrite H1. destruct (parse_int (getenv env "PORT" "80")) as [p|].
    + rewrite H2. reflexivity.
    + destruct H2 as (e & -> & He). exists e. split; [reflexivity | exact He].
  - destruct H1 as (e & -> & He). exists e. split; [reflexivity | exact He].
Qed.

End StrInt.

(** ** Sample runs of the handler *)

Example run_reachable :
  health_check default_globals (mkWorld writes_all (answers 200)) [] =
  (Returned [("status", "healthy"); ("ollama", "reachable")],
   [Sent (mkRequest "HEAD" "http://localhost:80/" [] (httpx_Timeout 2))]).
Proof. reflexivity. Qed.

Example run_degraded_204 :
  health_check default_globals (mkWorld writes_all (answers 204)) [] =
  (Returned [("status", "healthy"); ("ollama", "degraded")],
   [Sent (mkRequest "HEAD" "http://localhost:80/" [] (httpx_Timeout 2));
    Logged (mkLogRecord WARNING "Health check: Ollama degraded (status 204)")]).
Proof. reflexivity. Qed.

Example run_initializing_debug :
  health_check debug_globals (mkWorld writes_all refuses) [] =
  (Returned [("status", "healthy"); ("ollama", "initializing")],
   [Logged (mkLogRecord DEBUG "GET /ping - Health check request");
    Sent (mkRequest "HEAD" "http://localhost:80/" [] (httpx_Timeout 2));
    Logged (mkLogRecord WARNING
              "Health check: Ollama not ready: All connection attempts failed")]).
Proof. reflexivity. Qed.

Example run_import_debug :
  import_module (setenv empty_environ "LOG_LEVEL" "DEBUG") = Returned debug_globals.
Proof. reflexivity. Qed.

(** ** Running the handler *)

Ltac run_handler :=
  unfold get_ping, respond, health_check, try_except_Exception, try_body, except_clause,
    logger_debug, logger_warning, logger_log, client_head, bind, ret, raise,
    probe_request in *.

(** The handler's answer under quiet logging, for each end of the
    exchange. *)
Lemma health_check_quiet g w tr :
  quiet w ->
  fst (health_check g w tr) =
  match send w (probe_request g) with
  | Returned r =>
      Returned [("status", "healthy");
                ("ollama", if status_code r =? 200 then "reachable" else "degraded")]
  | Raised e =>
      if isinstance_Exception e
      then Returned [("status", "healthy"); ("ollama", "initializing")]
      else Raised e
  end.
Proof.
  intros Hq. run_handler.
  destruct (isEnabledFor g DEBUG) eqn:Hd; rewrite ?Hq;
    (destruct (send w _) as [r|e];
     [ destruct (status_code r =? 200); rewrite ?Hd;
       destruct (isEnabledFor g WARNING); rewrite ?Hq; reflexivity
     | destruct (isinstance_Exception e); [|reflexivity];
       destruct (isEnabledFor g WARNING); rewrite ?Hq; reflexivity ]).
Qed.

(** The answer of the route is the framework's answer to the end of the
    handler. *)
Lemma get_ping_of_health_check g w tr :
  fst (get_ping g w tr) = respond (fst (health_check g w tr)).
Proof.
  unfold get_ping. destruct (health_check g w tr) as [o tr']. reflexivity.
Qed.

(** *** The answer does not depend on what happened before

    The primitives are oblivious, and sequencing and [try] keep it. *)

Lemma oblivious_ret {A} (a : A) : oblivious (ret a).
Proof. intros tr tr'. reflexivity. Qed.

Lemma oblivious_bind {A B} (m : M A) (k : A -> M B) :
  oblivious m -> (forall a, oblivious (k a)) -> oblivious (bind m k).
Proof.
  intros Hm Hk tr tr'. unfold bind.
  specialize (Hm tr tr').
  destruct (m tr) as [[a|e] t], (m tr') as [[a'|e'] t']; simpl in Hm;
    try discriminate; injection Hm as ->.
  - apply Hk.
  - reflexivity.
Qed.

Lemma oblivious_try {A} (body : M A) (handler : Exc -> M A) :
  oblivious body -> (forall e, oblivious (handler e)) ->
  oblivious (try_except_Exception body handler).
Proof.
  intros Hb Hh tr tr'. unfold try_except_Exception.
  specialize (Hb tr tr').
  destruct (body tr) as [[a|e] t], (body tr') as [[a'|e'] t']; simpl in Hb;
    try discriminate; injection Hb as ->.
  - reflexivity.
  - destruct (isinstance_Exception e'); [apply Hh | reflexivity].
Qed.

Lemma oblivious_logger_log g w l text : oblivious (logger_log g w l text).
Proof.
  intros tr tr'. unfold logger_log, ret, raise.
  destruct (isEnabledFor g l); [destruct (emit w _)|]; reflexivity.
Qed.

Lemma oblivious_client_head g w u t : oblivious (client_head g w u t).
Proof. intros tr tr'. reflexivity. Qed.

Lemma oblivious_try_body g w : oblivious (try_body g w).
Proof.
  unfold try_body. apply oblivious_bind; [apply oblivious_client_head|].
  intros r. destruct (status_code r =? 200);
    (apply oblivious_bind; [apply oblivious_logger_log | intros _; apply oblivious_ret]).
Qed.

Lemma oblivious_except_clause g w e : oblivious (except_clause g w e).
Proof.
  unfold except_clause.
  apply oblivious_bind; [apply oblivious_logger_log | intros _; apply oblivious_ret].
Qed.

Lemma oblivious_health_check g w : oblivious (health_check g w).
Proof.
  unfold health_check. apply oblivious_bind; [apply oblivious_logger_log|].
  intros _. apply oblivious_try;
    [apply oblivious_try_body | apply oblivious_except_clause].
Qed.

(** ** The answer to a probe *)

(** C1.  Whatever the end of the exchange with the upstream server is (a
    response with status 200 or with any other status, or an error such
    as a refused connection or an expired timeout), [GET /ping] is
    answered with status 200 and a body whose ["status"] field is
    ["healthy"].  An error of the exchange is an instance of [Exception]
    ([errors_only]), and the logging calls are taken not to raise
    ([quiet]). *)
Theorem ping_200_healthy_for_every_upstream_outcome :
  forall g w tr,
    quiet w -> errors_only w ->
    exists d,
      fst (get_ping g w tr) = Returned (mkHttpResponse 200 (Some d)) /\
      dict_get d "status" = Some "healthy".
Proof.
  intros g w tr Hq He.
  rewrite get_ping_of_health_check, (health_check_quiet g w tr Hq).
  destruct (send w (probe_request g)) as [r|e] eqn:Hs.
  - eexists. split; reflexivity.
  - rewrite (He _ _ Hs). eexists. split; reflexivity.
Qed.

Lemma ping_200_healthy_witness :
  let w := mkWorld writes_all hangs in
  quiet w /\ errors_only w /\
  exists d,
    fst (get_ping default_globals w []) = Returned (mkHttpResponse 200 (Some d)) /\
    dict_get d "status" = Some "healthy".
Proof.
  intros w.
  assert (Hq : quiet w) by (intros r; reflexivity).
  assert (He : errors_only w) by (intros q x H; injection H as <-; reflexivity).
  split; [exact Hq|]. split; [exact He|].
  exact (ping_200_healthy_for_every_upstream_outcome default_globals w [] Hq He).
Defined.

(** C2.  When the exchange ends with a response whose status code is 200,
    the handler returns a body whose ["ollama"] field is ["reachable"].
    The logging calls are taken not to raise. *)
Theorem status_200_is_reachable :
  forall g w tr r,
    quiet w ->
    send w (probe_request g) = Returned r ->
    status_code r = 200 ->
    exists d,
      fst (health_check g w tr) = Returned d /\
      dict_get d "ollama" = Some "reachable".
Proof.
  intros g w tr r Hq Hs Hc.
  rewrite (health_check_quiet g w tr Hq), Hs, Hc.
  eexists. split; reflexivity.
Qed.

Lemma status_200_is_reachable_witness :
  let w := mkWorld writes_all (answers 200) in
  quiet w /\
  send w (probe_request default_globals) = Returned (mkResponse 200) /\
  exists d,
    fst (health_check default_globals w []) = Returned d /\
    dict_get d "ollama" = Some "reachable".
Proof.
  intros w.
  assert (Hq : quiet w) by (intros r; reflexivity).
  split; [exact Hq|]. split; [reflexivity|].
  exact (status_200_is_reachable default_globals w [] (mkResponse 200)
           Hq eq_refl eq_refl).
Defined.

(** C3.  When the exchange ends with a response whose status code is not
    200, the handler returns a body whose ["ollama"] field is
    ["degraded"].  The logging calls are taken not to raise. *)
Theorem status_other_than_200_is_degraded :
  forall g w tr r,
    quiet w ->
    send w (probe_request g) = Returned r ->
    status_code r <> 200 ->
    exists d,
      fst (health_check g w tr) = Returned d /\
      dict_get d "ollama" = Some "degraded".
Proof.
  intros g w tr r Hq Hs Hc.
  rewrite (health_check_quiet g w tr Hq), Hs.
  apply Z.eqb_neq in Hc. rewrite Hc.
  eexists. split; reflexivity.
Qed.

Lemma status_503_is_degraded_witness :
  let w := mkWorld writes_all (answers 503) in
  quiet w /\
  send w (probe_request default_globals) = Returned (mkResponse 503) /\
  exists d,
    fst (health_check default_globals w []) = Returned d /\
    dict_get d "ollama" = Some "degraded".
Proof.
  intros w.
  assert (Hq : quiet w) by (intros r; reflexivity).
  assert (Hc : status_code (mkResponse 503) <> 200) by (simpl; lia).
  split; [exact Hq|]. split; [reflexivity|].
  exact (status_other_than_200_is_degraded default_globals w [] (mkResponse 503)
           Hq eq_refl Hc).
Defined.

(** C4.  When the exchange fails, with whatever error (an instance of
    [Exception]: a refused connection, an expired timeout, a reset, or any
    other), the handler catches the error: it returns the body whose
    ["ollama"] field is ["initializing"], and the route answers 200, not
    an error.  The logging calls are taken not to raise. *)
Theorem upstream_failure_is_initializing :
  forall g w tr e,
    quiet w ->
    send w (probe_request g) = Raised e ->
    isinstance_Exception e = true ->
    fst (health_check g w tr) =
      Returned [("status", "healthy"); ("ollama", "initializing")] /\
    fst (get_ping g w tr) =
      Returned (mkHttpResponse 200
                  (Some [("status", "healthy"); ("ollama", "initializing")])).
Proof.
  intros g w tr e Hq Hs He.
  assert (H : fst (health_check g w tr) =
              Returned [("status", "healthy"); ("ollama", "initializing")])
    by now rewrite (health_check_quiet g w tr Hq), Hs, He.
  split; [exact H|].
  now rewrite get_ping_of_health_check, H.
Qed.

Lemma connection_refused_is_initializing_witness :
  let w := mkWorld writes_all refuses in
  let e := mkExc ConnectError "All connection attempts failed" in
  quiet w /\
  send w (probe_request default_globals) = Raised e /\
  isinstance_Exception e = true /\
  fst (health_check default_globals w []) =
    Returned [("status", "healthy"); ("ollama", "initializing")] /\
  fst (get_ping default_globals w []) =
    Returned (mkHttpResponse 200
                (Some [("status", "healthy"); ("ollama", "initializing")])).
Proof.
  intros w e.
  assert (Hq : quiet w) by (intros r; reflexivity).
  split; [exact Hq|]. split; [reflexivity|]. split; [reflexivity|].
  exact (upstream_failure_is_initializing default_globals w [] e
           Hq eq_refl eq_refl).
Defined.

(** ** Repeated probes *)

(** C7.  The answer to a probe is determined by the end of the exchange
    with the upstream server.  In one world, a probe gets the same answer
    whatever happened before it, so a repeated probe gets the answer of
    the first.  Across worlds, with logging calls that do not raise, two
    probes whose exchanges the specification classifies alike get the same
    answer, whose ["ollama"] field is the name of that class. *)
Theorem probe_answer_determined_by_upstream :
  forall g w tr,
    (forall tr', fst (get_ping g w tr') = fst (get_ping g w tr)) /\
    fst (get_ping g w (snd (get_ping g w tr))) = fst (get_ping g w tr) /\
    (forall w' tr',
        quiet w -> quiet w' -> errors_only w -> errors_only w' ->
        classify (send w' (probe_request g)) = classify (send w (probe_request g)) ->
        fst (get_ping g w' tr') = fst (get_ping g w tr) /\
        fst (get_ping g w tr) =
          Returned
            (mkHttpResponse 200
               (Some [("status", "healthy");
                      ("ollama", external_name (classify (send w (probe_request g))))]))).
Proof.
  intros g w tr.
  assert (Hsame : forall tr', fst (get_ping g w tr') = fst (get_ping g w tr)).
  { intros tr'. rewrite !get_ping_of_health_check.
    now rewrite (oblivious_health_check g w tr' tr). }
  split; [exact Hsame|]. split; [apply Hsame|].
  intros w' tr' Hq Hq' He He' Hc.
  rewrite !get_ping_of_health_check,
    (health_check_quiet g w tr Hq), (health_check_quiet g w' tr' Hq').
  destruct (send w (probe_request g)) as [r|e] eqn:Hs;
    destruct (send w' (probe_request g)) as [r'|e'] eqn:Hs'; unfold classify in *.
  - destruct (status_code r =? 200), (status_code r' =? 200);
      try discriminate; split; reflexivity.
  - destruct (status_code r =? 200); discriminate.
  - destruct (status_code r' =? 200); discriminate.
  - rewrite (He _ _ Hs), (He' _ _ Hs'). split; reflexivity.
Qed.

Lemma probe_answer_determined_witness :
  let w := mkWorld writes_all (answers 503) in
  let w' := mkWorld writes_all (answers 404) in
  fst (get_ping default_globals w' []) = fst (get_ping default_globals w []) /\
  fst (get_ping default_globals w []) =
    Returned (mkHttpResponse 200 (Some [("status", "healthy"); ("ollama", "degraded")])).
Proof.
  intros w w'.
  assert (Hq : quiet w) by (intros r; reflexivity).
  assert (Hq' : quiet w') by (intros r; reflexivity).
  assert (He : errors_only w) by (intros q x H; discriminate H).
  assert (He' : errors_only w') by (intros q x H; discriminate H).
  exact (proj2 (proj2 (probe_answer_determined_by_upstream default_globals w []))
           w' [] Hq Hq' He He' eq_refl).
Defined.

(** ** Failing logging calls *)

(** A logging call returns, or the handlers raised on its record. *)
Lemma logger_log_cases g w l text tr :
  (exists tr', logger_log g w l text tr = (Returned tt, tr')) \/
  (exists e, emit w (mkLogRecord l text) = Some e /\
             isEnabledFor g l = true /\
             logger_log g w l text tr = (Raised e, tr)).
Proof.
  unfold logger_log, ret, raise.
  destruct (isEnabledFor g l); [destruct (emit w _) as [e|]|].
  - right. exists e. auto.
  - left. eauto.
  - left. eauto.
Qed.

Lemma logger_log_passes g w l text tr :
  passes g w l text ->
  exists tr', logger_log g w l text tr = (Returned tt, tr').
Proof.
  intros Hp. destruct (logger_log_cases g w l text tr) as [H|(e & He & Hl & _)].
  - exact H.
  - rewrite (Hp Hl) in He. discriminate.
Qed.

(** What the [try] body can end with: one of the two dictionaries, or an
    exception of the exchange or of a logging call. *)
Lemma try_body_cases g w tr :
  match fst (try_body g w tr) with
  | Returned d =>
      d = [("status", "healthy"); ("ollama", "reachable")] \/
      d = [("status", "healthy"); ("ollama", "degraded")]
  | Raised e =>
      send w (probe_request g) = Raised e \/
      exists r, emit w r = Some e
  end.
Proof.
  unfold try_body, client_head, bind, ret, logger_debug, logger_warning, probe_request.
  destruct (send w _) as [r|e]; [|simpl; auto].
  destruct (status_code r =? 200).
  - match goal with |- context [logger_log g w ?l ?m ?t] =>
      destruct (logger_log_cases g w l m t) as [[t' ->]|(e & He & _ & ->)] end;
      simpl; eauto.
  - match goal with |- context [logger_log g w ?l ?m ?t] =>
      destruct (logger_log_cases g w l m t) as [[t' ->]|(e & He & _ & ->)] end;
      simpl; eauto.
Qed.

(** The [except] clause returns when its logging call does not raise. *)
Lemma except_clause_returns g w e tr :
  passes g w WARNING ("Health check: Ollama not ready: " ++ str_exc e) ->
  fst (except_clause g w e tr) =
    Returned [("status", "healthy"); ("ollama", "initializing")].
Proof.
  intros Hp. unfold except_clause, bind, ret, logger_warning.
  destruct (logger_log_passes g w WARNING _ tr Hp) as [tr' ->]. reflexivity.
Qed.

(** The handler, when the logging call on entry does not raise, is the
    [try] statement. *)
Lemma health_check_after_entry g w tr :
  passes g w DEBUG "GET /ping - Health check request" ->
  exists tr1,
    health_check g w tr = try_except_Exception (try_body g w) (except_clause g w) tr1.
Proof.
  intros Hp. unfold health_check, bind, logger_debug.
  destruct (logger_log_passes g w DEBUG _ tr Hp) as [tr1 ->]. eauto.
Qed.

(** An instance of [Exception] raised in the [try] body is handled by the
    [except] clause. *)
Lemma health_check_catches g w tr e :
  passes g w DEBUG "GET /ping - Health check request" ->
  passes g w WARNING ("Health check: Ollama not ready: " ++ str_exc e) ->
  fst (try_body g w tr) = Raised e ->
  isinstance_Exception e = true ->
  fst (health_check g w tr) =
    Returned [("status", "healthy"); ("ollama", "initializing")].
Proof.
  intros H51 H65 Hb He.
  destruct (health_check_after_entry g w tr H51) as [tr1 ->].
  unfold try_except_Exception.
  rewrite (oblivious_try_body g w tr tr1) in Hb.
  destruct (try_body g w tr1) as [[d|x] t]; simpl in Hb; [discriminate|].
  injection Hb as ->. rewrite He.
  now apply except_clause_returns.
Qed.

(** C8, as the claim states it, fails.  With handlers that raise on every
    record and an upstream server that refuses the connection, the warning
    call of the [except] clause (line 65) raises outside any [try]: the
    handler raises and the route answers 500.  The same happens at the
    debug call on entry (line 51) when [LOG_LEVEL] is [DEBUG]. *)
Lemma logging_failure_reaches_the_caller :
  fst (get_ping default_globals (mkWorld disk_full refuses) []) =
    Returned (mkHttpResponse 500 None) /\
  fst (get_ping debug_globals (mkWorld fails_below_warning (answers 200)) []) =
    Returned (mkHttpResponse 500 None) /\
  ~ (forall g w tr,
        errors_only w ->
        (forall r e, emit w r = Some e -> isinstance_Exception e = true) ->
        exists d,
          fst (get_ping g w tr) = Returned (mkHttpResponse 200 (Some d)) /\
          dict_get d "status" = Some "healthy").
Proof.
  split; [reflexivity|]. split; [reflexivity|].
  intros H.
  destruct (H default_globals (mkWorld disk_full refuses) []) as (d & Hd & _).
  - intros q x Hx. injection Hx as <-. reflexivity.
  - intros r x Hx. injection Hx as <-. reflexivity.
  - discriminate Hd.
Qed.

(** C8, amended.  A logging call that raises inside the [try] body (the
    debug call of line 58, the warning call of line 61) does not reach the
    caller of [GET /ping]: when the debug call on entry and the warning
    call of the [except] clause do not raise, the route answers 200 with a
    body whose ["status"] field is ["healthy"]. *)
Theorem logging_failure_in_try_is_absorbed :
  forall g w tr,
    errors_only w ->
    (forall r e, emit w r = Some e -> isinstance_Exception e = true) ->
    passes g w DEBUG "GET /ping - Health check request" ->
    (forall e, passes g w WARNING ("Health check: Ollama not ready: " ++ str_exc e)) ->
    exists d,
      fst (get_ping g w tr) = Returned (mkHttpResponse 200 (Some d)) /\
      dict_get d "status" = Some "healthy".
Proof.
  intros g w tr He Hl H51 H65.
  rewrite get_ping_of_health_check.
  pose proof (try_body_cases g w tr) as Hb.
  destruct (fst (try_body g w tr)) as [d|e] eqn:Hbody.
  - destruct (health_check_after_entry g w tr H51) as [tr1 Hh].
    rewrite Hh. unfold try_except_Exception.
    rewrite (oblivious_try_body g w tr tr1) in Hbody.
    destruct (try_body g w tr1) as [[d'|x] t]; simpl in Hbody; [|discriminate].
    injection Hbody as ->. simpl.
    exists d. split; [reflexivity|]. destruct Hb as [-> | ->]; reflexivity.
  - assert (Hcls : isinstance_Exception e = true).
    { destruct Hb as [Hs | [r Hr]]; [exact (He _ _ Hs) | exact (Hl _ _ Hr)]. }
    rewrite (health_check_catches g w tr e H51 (H65 e) Hbody Hcls).
    eexists. split; reflexivity.
Qed.

Lemma logging_failure_in_try_witness :
  let w := mkWorld (fails_on "Health check: Ollama reachable") (answers 200) in
  emit w (mkLogRecord DEBUG "Health check: Ollama reachable") <> None /\
  exists d,
    fst (get_ping debug_globals w []) = Returned (mkHttpResponse 200 (Some d)) /\
    dict_get d "status" = Some "healthy".
Proof.
  intros w. split; [discriminate|].
  apply (logging_failure_in_try_is_absorbed debug_globals w []).
  - intros q x Hx. discriminate Hx.
  - intros r x Hx. unfold w, fails_on in Hx. simpl in Hx.
    destruct (String.eqb (msg r) _); [|discriminate].
    injection Hx as <-. reflexivity.
  - intros _. reflexivity.
  - intros e _. reflexivity.
Defined.

(** ** The reach of the [except] clause *)

(** C9, as the claim states it, fails.  [asyncio.CancelledError] derives
    from [BaseException], not from [Exception]: raised at the [await] of
    line 55, inside the [try] body, it passes the [except Exception]
    clause and leaves the handler. *)
Lemma cancellation_is_not_caught :
  fst (try_body default_globals (mkWorld writes_all cancelled) []) =
    Raised (mkExc CancelledError "") /\
  fst (health_check default_globals (mkWorld writes_all cancelled) []) =
    Raised (mkExc CancelledError "") /\
  ~ (forall g w tr e,
        quiet w ->
        fst (try_body g w tr) = Raised e ->
        fst (health_check g w tr) =
          Returned [("status", "healthy"); ("ollama", "initializing")]).
Proof.
  split; [reflexivity|]. split; [reflexivity|].
  intros H.
  specialize (H default_globals (mkWorld writes_all cancelled) []
                (mkExc CancelledError "") (fun _ => eq_refl) eq_refl).
  discriminate H.
Qed.

(** C9, amended.  Every instance of [Exception] raised anywhere in the
    [try] body, by the exchange or by a logging call, is handled by the
    [except] clause: when the debug call on entry and the warning call of
    the clause do not raise, the handler returns the dictionary with
    ["status"] ["healthy"] and ["ollama"] ["initializing"], and the route
    answers 200 with it. *)
Theorem every_Exception_in_try_is_initializing :
  forall g w tr e,
    fst (try_body g w tr) = Raised e ->
    isinstance_Exception e = true ->
    passes g w DEBUG "GET /ping - Health check request" ->
    passes g w WARNING ("Health check: Ollama not ready: " ++ str_exc e) ->
    fst (health_check g w tr) =
      Returned [("status", "healthy"); ("ollama", "initializing")] /\
    fst (get_ping g w tr) =
      Returned (mkHttpResponse 200
                  (Some [("status", "healthy"); ("ollama", "initializing")])).
Proof.
  intros g w tr e Hb He H51 H65.
  pose proof (health_check_catches g w tr e H51 H65 Hb He) as H.
  split; [exact H|].
  now rewrite get_ping_of_health_check, H.
Qed.

Lemma every_Exception_in_try_witness :
  let w := mkWorld (fails_on "Health check: Ollama reachable") (answers 200) in
  let e := mkExc OSError "[Errno 28] No space left on device" in
  fst (try_body debug_globals w []) = Raised e /\
  isinstance_Exception e = true /\
  fst (health_check debug_globals w []) =
    Returned [("status", "healthy"); ("ollama", "initializing")] /\
  fst (get_ping debug_globals w []) =
    Returned (mkHttpResponse 200
                (Some [("status", "healthy"); ("ollama", "initializing")])).
Proof.
  intros w e. split; [reflexivity|]. split; [reflexivity|].
  apply (every_Exception_in_try_is_initializing debug_globals w [] e).
  - reflexivity.
  - reflexivity.
  - intros _. reflexivity.
  - intros _. reflexivity.
Defined.

(** ** What a probe sends *)







Lemma import_module_returned {R : Runtime} env g :
  import_module env = Returned g ->
  exists ph p,
    parse_int (getenv env "PORT_HEALTH" "8080") = Some ph /\
    parse_int (getenv env "PORT" "80") = Some p /\
    g = mkGlobals (LOG_LEVEL g) ph p ("http://localhost:" ++ str_int p)
          (httpx_Timeout 2).
Proof.
  intros H. pose proof (import_module_cases env) as Hc.
  destruct (parse_int (getenv env "PORT_HEALTH" "8080")) as [ph|].
  - destruct (parse_int (getenv env "PORT" "80")) as [p|].
    + rewrite Hc in H. injection H as <-. exists ph, p. auto.
    + destruct Hc as (e & He & _). congruence.
  - destruct Hc as (e & He & _). congruence.
Qed.

Lemma import_module_level {R : Runtime} env g :
  import_module env = Returned g ->
  LOG_LEVEL g =
    match env "LOG_LEVEL" with
    | Some v => if text_eqb v "DEBUG" then DEBUG else INFO
    | None => INFO
    end.
Proof.
  intros H. pose proof (import_module_cases env) as Hc.
  destruct (parse_int (getenv env "PORT_HEALTH" "8080")) as [ph|].
  - destruct (parse_int (getenv env "PORT" "80")) as [p|].
    + rewrite Hc in H. now injection H as <-.
    + destruct Hc as (e & He & _). congruence.
  - destruct Hc as (e & He & _). congruence.
Qed.



(** ** The ports accepted at start-up *)




(** * Further properties of the module *)

(** ** What the handler can end with *)

(** [WARNING] is at or above every level the logger can be set to. *)
Lemma warning_enabled g : isEnabledFor g WARNING = true.
Proof. unfold isEnabledFor. destruct (LOG_LEVEL g); reflexivity. Qed.

Lemma try_body_sound g w tr :
  match fst (try_body g w tr) with
  | Returned d =>
      exists r, send w (probe_request g) = Returned r /\
        (status_code r = 200 /\ d = [("status", "healthy"); ("ollama", "reachable")] \/
         status_code r <> 200 /\ d = [("status", "healthy"); ("ollama", "degraded")])
  | Raised e =>
      send w (probe_request g) = Raised e \/
      exists rec, emit w rec = Some e /\ isEnabledFor g (levelname rec) = true
  end.
Proof.
  unfold try_body, client_head, bind, ret, logger_debug, logger_warning, probe_request.
  destruct (send w _) as [r|e]; [|simpl; auto].
  destruct (status_code r =? 200) eqn:Hc.
  - apply Z.eqb_eq in Hc.
    match goal with |- context [logger_log g w ?l ?m ?t] =>
      destruct (logger_log_cases g w l m t) as [[t' ->]|(e & He & Hl & ->)] end;
      simpl; eauto 7.
  - apply Z.eqb_neq in Hc.
    match goal with |- context [logger_log g w ?l ?m ?t] =>
      destruct (logger_log_cases g w l m t) as [[t' ->]|(e & He & Hl & ->)] end;
      simpl; eauto 7.
Qed.

Lemma health_check_outcome g w tr :
  match fst (health_check g w tr) with
  | Returned d =>
      (exists r, send w (probe_request g) = Returned r /\ status_code r = 200 /\
                 d = [("status", "healthy"); ("ollama", "reachable")]) \/
      (exists r, send w (probe_request g) = Returned r /\ status_code r <> 200 /\
                 d = [("status", "healthy"); ("ollama", "degraded")]) \/
      (d = [("status", "healthy"); ("ollama", "initializing")] /\
       exists e, isinstance_Exception e = true /\
         (send w (probe_request g) = Raised e \/
          exists rec, emit w rec = Some e /\ isEnabledFor g (levelname rec) = true))
  | Raised e =>
      (exists rec, emit w rec = Some e /\ isEnabledFor g (levelname rec) = true) \/
      (send w (probe_request g) = Raised e /\ isinstance_Exception e = false)
  end.
Proof.
  unfold health_check, bind, logger_debug.
  destruct (logger_log_cases g w DEBUG "GET /ping - Health check request" tr)
    as [[tr1 ->]|(e & He & Hl & ->)]; [|simpl; left; eauto].
  unfold try_except_Exception.
  pose proof (try_body_sound g w tr1) as Hb.
  destruct (try_body g w tr1) as [[d|x] t]; cbn [fst] in Hb |- *.
  - destruct Hb as (r & Hs & [[Hc ->]|[Hc ->]]); eauto 8.
  - destruct (isinstance_Exception x) eqn:Hx.
    + unfold except_clause, bind, ret, logger_warning.
      match goal with |- context [logger_log g w ?l ?m ?t0] =>
        destruct (logger_log_cases g w l m t0) as [[t' ->]|(e & He & Hl & ->)] end;
        cbn [fst].
      * right. right. split; [reflexivity|]. exists x. split; [exact Hx|].
        destruct Hb as [Hs|Hr]; auto.
      * left. eauto.
    + cbn [fst]. destruct Hb as [Hs|Hr]; [right; auto | left; exact Hr].
Qed.

(** X1.  Whatever the upstream server and the logging handlers do, a
    dictionary the handler returns is one of three: ["status"] is
    ["healthy"] and ["ollama"] is ["reachable"], ["degraded"] or
    ["initializing"]. *)
Theorem answer_is_one_of_three :
  forall g w tr d,
    fst (health_check g w tr) = Returned d ->
    d = [("status", "healthy"); ("ollama", "reachable")] \/
    d = [("status", "healthy"); ("ollama", "degraded")] \/
    d = [("status", "healthy"); ("ollama", "initializing")].
Proof.
  intros g w tr d H. pose proof (health_check_outcome g w tr) as Ho.
  rewrite H in Ho.
  destruct Ho as [(r & _ & _ & ->) | [(r & _ & _ & ->) | [-> _]]]; auto.
Qed.

Lemma answer_is_one_of_three_witness :
  let w := mkWorld (fails_on "Health check: Ollama degraded (status 503)")
             (answers 503) in
  let d := [("status", "healthy"); ("ollama", "initializing")] in
  fst (health_check default_globals w []) = Returned d /\
  (d = [("status", "healthy"); ("ollama", "reachable")] \/
   d = [("status", "healthy"); ("ollama", "degraded")] \/
   d = [("status", "healthy"); ("ollama", "initializing")]).
Proof.
  intros w d. split; [reflexivity|].
  exact (answer_is_one_of_three default_globals w [] d eq_refl).
Defined.

(** X2.  The handler gives no false answer, even when logging calls
    raise: it answers ["reachable"] only when the exchange ended with
    status 200, ["degraded"] only when it ended with another status, and
    ["initializing"] only when an instance of [Exception] was raised in
    the [try] body, by the exchange or by a logging call. *)
Theorem answer_agrees_with_the_exchange :
  forall g w tr d,
    fst (health_check g w tr) = Returned d ->
    (dict_get d "ollama" = Some "reachable" ->
     exists r, send w (probe_request g) = Returned r /\ status_code r = 200) /\
    (dict_get d "ollama" = Some "degraded" ->
     exists r, send w (probe_request g) = Returned r /\ status_code r <> 200) /\
    (dict_get d "ollama" = Some "initializing" ->
     exists e, isinstance_Exception e = true /\
       (send w (probe_request g) = Raised e \/
        exists rec, emit w rec = Some e /\ isEnabledFor g (levelname rec) = true)).
Proof.
  intros g w tr d H. pose proof (health_check_outcome g w tr) as Ho.
  rewrite H in Ho.
  destruct Ho as [(r & Hs & Hc & ->) | [(r & Hs & Hc & ->) | [-> He]]];
    repeat split; intros Hd; try discriminate Hd; eauto.
Qed.

Lemma answer_agrees_with_the_exchange_witness :
  let w := mkWorld disk_full (answers 200) in
  fst (health_check default_globals w []) =
    Returned [("status", "healthy"); ("ollama", "reachable")] /\
  exists r, send w (probe_request default_globals) = Returned r /\ status_code r = 200.
Proof.
  intros w. split; [reflexivity|].
  exact (proj1 (answer_agrees_with_the_exchange default_globals w []
                  [("status", "healthy"); ("ollama", "reachable")] eq_refl)
           eq_refl).
Defined.

(** X3.  An exception leaves the handler only in two ways: a logging call
    at an enabled level raised it, or the exchange raised it and it is not
    an instance of [Exception].  An instance of [Exception] raised by the
    exchange never leaves the handler. *)
Theorem only_logging_and_non_Exception_escape :
  forall g w tr e,
    fst (health_check g w tr) = Raised e ->
    (exists rec, emit w rec = Some e /\ isEnabledFor g (levelname rec) = true) \/
    (send w (probe_request g) = Raised e /\ isinstance_Exception e = false).
Proof.
  intros g w tr e H. pose proof (health_check_outcome g w tr) as Ho.
  now rewrite H in Ho.
Qed.

Lemma only_logging_and_non_Exception_escape_witness :
  let w := mkWorld disk_full refuses in
  let e := mkExc OSError "[Errno 28] No space left on device" in
  fst (health_check default_globals w []) = Raised e /\
  ((exists rec, emit w rec = Some e /\
                isEnabledFor default_globals (levelname rec) = true) \/
   (send w (probe_request default_globals) = Raised e /\
    isinstance_Exception e = false)).
Proof.
  intros w e. split; [reflexivity|].
  exact (only_logging_and_non_Exception_escape default_globals w [] e eq_refl).
Defined.

(** ** What a probe writes *)


(** The trace of a probe when no logging call raises. *)
Lemma health_check_quiet_trace g w tr :
  quiet w ->
  snd (health_check g w tr) = (tr ++ probe_events g (send w (probe_request g)))%list.
Proof.
  intros Hq. unfold probe_events. run_handler.
  rewrite (warning_enabled g).
  destruct (isEnabledFor g DEBUG) eqn:Hd; rewrite ?Hq;
    (destruct (send w _) as [r|e];
     [ destruct (status_code r =? 200); rewrite ?Hd, ?Hq; cbn;
       rewrite <- ?app_assoc; reflexivity
     | destruct (isinstance_Exception e); rewrite ?Hq; cbn;
       rewrite <- ?app_assoc; reflexivity ]).
Qed.





(** X6.  When no logging call raises, the request and the warnings of a
    probe are fixed by the end of the exchange, under every log level:
    the one request, and then no warning at status 200, the warning with
    the status code at another status, the warning with the text of the
    exception when the exchange raised one that the handler catches. *)
Theorem probe_requests_and_warnings_when_logging_works :
  forall g w tr,
    quiet w ->
    exists evs,
      snd (health_check g w tr) = (tr ++ evs)%list /\
      requests evs = [probe_request g] /\
      warnings evs =
        match send w (probe_request g) with
        | Returned r =>
            if status_code r =? 200 then []
            else [mkLogRecord WARNING
                    ("Health check: Ollama degraded (status "
                     ++ str_int (status_code r) ++ ")")]
        | Raised e =>
            if isinstance_Exception e
            then [mkLogRecord WARNING
                    ("Health check: Ollama not ready: " ++ str_exc e)]
            else []
        end.
Proof.
  intros g w tr Hq.
  exists (probe_events g (send w (probe_request g))).
  split; [now apply health_check_quiet_trace|].
  unfold probe_events.
  destruct (isEnabledFor g DEBUG);
    (destruct (send w (probe_request g)) as [r|e];
     [ destruct (status_code r =? 200) | destruct (isinstance_Exception e) ]);
    split; reflexivity.
Qed.

Lemma probe_requests_and_warnings_witness :
  let w := mkWorld writes_all hangs in
  quiet w /\
  requests (snd (health_check debug_globals w [])) =
    [mkRequest "HEAD" "http://localhost:80/" [] (httpx_Timeout 2)] /\
  warnings (snd (health_check debug_globals w [])) =
    [mkLogRecord WARNING "Health check: Ollama not ready: "].
Proof.
  intros w.
  assert (Hq : quiet w) by (intros r; reflexivity).
  split; [exact Hq|].
  destruct (probe_requests_and_warnings_when_logging_works debug_globals w [] Hq)
    as (evs & Ht & Hr & Hw).
  cbn [List.app] in Ht. rewrite Ht. split; [exact Hr | exact Hw].
Defined.

(** ** The configuration in use *)

(** X8.  The URL the probes go to names the port that was read: the text
    after ["http://localhost:"] is a literal that [int] reads as [PORT],
    the integer the text of the environment denotes, whatever spaces,
    sign, zeros or underscores that text has. *)
Theorem url_names_the_port_read :
  forall (R : Runtime) env g,
    import_module env = Returned g ->
    exists s,
      OLLAMA_URL g = "http://localhost:" ++ s /\
      url (probe_request g) = "http://localhost:" ++ s ++ "/" /\
      parse_int s = Some (PORT g) /\
      parse_int (getenv env "PORT" "80") = Some (PORT g) /\
      s = str_int (PORT g).
Proof.
  intros R env g Hg.
  destruct (import_module_returned env g Hg) as (ph & p & _ & Hp & Heq).
  exists (str_int p).
  assert (HP : PORT g = p) by (rewrite Heq; reflexivity).
  assert (HU : OLLAMA_URL g = "http://localhost:" ++ str_int p)
    by (rewrite Heq; reflexivity).
  unfold probe_request. cbn [url]. rewrite HU, HP.
  split; [reflexivity|]. split; [reflexivity|].
  split; [apply parse_int_str_int; exact (parse_int_bound _ _ Hp)|].
  split; [exact Hp | reflexivity].
Qed.

Lemma url_names_the_port_read_witness :
  let env := setenv empty_environ "PORT" " +0_011_434 " in
  let g := mkGlobals INFO 8080 11434 "http://localhost:11434" (httpx_Timeout 2) in
  import_module env = Returned g /\
  exists s,
    OLLAMA_URL g = "http://localhost:" ++ s /\
    url (probe_request g) = "http://localhost:" ++ s ++ "/" /\
    parse_int s = Some (PORT g) /\
    parse_int (getenv env "PORT" "80") = Some (PORT g) /\
    s = str_int (PORT g).
Proof.
  intros env g. split; [reflexivity|].
  exact (url_names_the_port_read excerpt env g eq_refl).
Defined.

(** X9.  Spaces around the text of [PORT] or [PORT_HEALTH] (a trailing
    line break, say) change nothing: when the module imports with a text,
    it imports to the same globals with the text padded by spaces. *)
Theorem padded_port_text_gives_the_same_globals :
  forall (R : Runtime) env name text ws1 ws2 g,
    name = "PORT" \/ name = "PORT_HEALTH" ->
    env name = Some text ->
    all_space ws1 = true -> all_space ws2 = true ->
    import_module env = Returned g ->
    import_module (setenv env name (ws1 ++ text ++ ws2)%list) = Returned g.
Proof.
  intros R env name text ws1 ws2 g Hname Htext Hw1 Hw2 Hg.
  destruct (import_module_returned env g Hg) as (ph & p & Hph & Hp & Heq).
  pose proof (import_module_level env g Hg) as Hlvl.
  pose proof (import_module_cases (setenv env name (ws1 ++ text ++ ws2)%list)) as Hc.
  rewrite Heq. rewrite Hlvl.
  unfold getenv, setenv in *.
  destruct Hname as [-> | ->]; cbn [String.eqb Ascii.eqb Bool.eqb] in Hc; cbv iota in Hc.
  - rewrite Htext in Hp. rewrite (parse_int_padded _ _ _ _ Hw1 Hw2 Hp), Hph in Hc.
    exact Hc.
  - rewrite Htext in Hph. rewrite (parse_int_padded _ _ _ _ Hw1 Hw2 Hph), Hp in Hc.
    exact Hc.
Qed.

Lemma padded_port_text_witness :
  let env := setenv empty_environ "PORT_HEALTH" "9000" in
  let g := mkGlobals INFO 9000 80 "http://localhost:80" (httpx_Timeout 2) in
  import_module env = Returned g /\
  import_module (setenv env "PORT_HEALTH" "  9000 ") = Returned g.
Proof.
  intros env g. split; [reflexivity|].
  exact (padded_port_text_gives_the_same_globals excerpt env "PORT_HEALTH"
           (text_of_string "9000") (text_of_string "  ") (text_of_string " ") g
           (or_intror eq_refl) eq_refl eq_refl eq_refl eq_refl).
Defined.

(** ** Start-up *)

(** X10.  Under every configuration the module can import, the start-up
    hook writes its two records, which name the listening port and the
    upstream URL, and sends nothing: [LOG_LEVEL] cannot silence them. *)
Theorem startup_banner_is_always_written :
  forall (R : Runtime) env g w tr,
    import_module env = Returned g ->
    quiet w ->
    startup_event g w tr =
      (Returned tt,
       (tr ++ [Logged (mkLogRecord INFO
                         ("Starting Health Server on port " ++ str_int (PORT_HEALTH g)));
               Logged (mkLogRecord INFO
                         ("Monitoring Ollama at http://localhost:" ++ str_int (PORT g)))])%list).
Proof.
  intros R env g w tr Hg Hq.
  destruct (import_module_returned env g Hg) as (ph & p & _ & _ & Heq).
  assert (Hi : isEnabledFor g INFO = true).
  { unfold isEnabledFor. rewrite (import_module_level env g Hg).
    destruct (env "LOG_LEVEL") as [v|]; [|reflexivity].
    destruct (text_eqb v "DEBUG"); reflexivity. }
  assert (HU : OLLAMA_URL g = "http://localhost:" ++ str_int (PORT g))
    by (rewrite Heq; reflexivity).
  unfold startup_event, logger_info, logger_log, bind, ret.
  rewrite Hi, !Hq, HU, <- app_assoc. reflexivity.
Qed.

Lemma startup_banner_witness :
  let w := mkWorld writes_all refuses in
  import_module (setenv empty_environ "LOG_LEVEL" "DEBUG") = Returned debug_globals /\
  quiet w /\
  startup_event debug_globals w [] =
    (Returned tt,
     [Logged (mkLogRecord INFO "Starting Health Server on port 8080");
      Logged (mkLogRecord INFO "Monitoring Ollama at http://localhost:80")]).
Proof.
  intros w.
  assert (Hq : quiet w) by (intros r; reflexivity).
  split; [reflexivity|]. split; [exact Hq|].
  exact (startup_banner_is_always_written excerpt
           (setenv empty_environ "LOG_LEVEL" "DEBUG") debug_globals w [] eq_refl Hq).
Defined.

(** ** The log level and the answers *)

(** X11.  When no logging call raises, the log level changes only the
    debug records: two configurations that probe the same URL give the
    same answer, send the same request and write the same warnings. *)
Theorem log_level_changes_only_debug_records :
  forall g g' w tr,
    quiet w ->
    OLLAMA_URL g' = OLLAMA_URL g ->
    fst (health_check g' w tr) = fst (health_check g w tr) /\
    exists evs evs',
      snd (health_check g w tr) = (tr ++ evs)%list /\
      snd (health_check g' w tr) = (tr ++ evs')%list /\
      requests evs' = requests evs /\
      warnings evs' = warnings evs.
Proof.
  intros g g' w tr Hq Hu.
  assert (Hp : probe_request g' = probe_request g)
    by (unfold probe_request; now rewrite Hu).
  split.
  - now rewrite !(health_check_quiet _ w tr Hq), Hp.
  - exists (probe_events g (send w (probe_request g))),
           (probe_events g' (send w (probe_request g'))).
    rewrite !(health_check_quiet_trace _ w tr Hq).
    split; [reflexivity|]. split; [reflexivity|].
    unfold probe_events. rewrite !Hp.
    destruct (isEnabledFor g DEBUG), (isEnabledFor g' DEBUG);
      (destruct (send w (probe_request g)) as [r|e];
       [destruct (status_code r =? 200) | destruct (isinstance_Exception e)]);
      split; reflexivity.
Qed.

Lemma log_level_changes_only_debug_records_witness :
  let w := mkWorld writes_all (answers 503) in
  quiet w /\
  fst (health_check debug_globals w []) = fst (health_check default_globals w []) /\
  exists evs evs',
    snd (health_check default_globals w []) = ([] ++ evs)%list /\
    snd (health_check debug_globals w []) = ([] ++ evs')%list /\
    requests evs' = requests evs /\
    warnings evs' = warnings evs.
Proof.
  intros w.
  assert (Hq : quiet w) by (intros r; reflexivity).
  split; [exact Hq|].
  exact (log_level_changes_only_debug_records default_globals debug_globals w []
           Hq eq_refl).
Defined.

(** ** Edge cases of the environment *)

(** X12.  A port variable that is set but empty or blank is not replaced
    by the default: the default is for an unset variable only, and the
    import raises [ValueError]. *)
Theorem blank_port_is_not_defaulted :
  forall (R : Runtime) env text,
    env "PORT" = Some text \/ env "PORT_HEALTH" = Some text ->
    all_space text = true ->
    exists e, import_module env = Raised e /\ exc_class e = ValueError.
Proof.
  intros R env text Hset Hb. pose proof (parse_int_blank text Hb) as Hn.
  pose proof (import_module_cases env) as Hc.
  unfold getenv in Hc.
  destruct Hset as [Hs|Hs]; rewrite Hs in Hc; rewrite Hn in Hc.
  - destruct (parse_int match env "PORT_HEALTH" with Some v => v | None => _ end);
      exact Hc.
  - exact Hc.
Qed.

Lemma blank_port_is_not_defaulted_witness :
  let env := setenv empty_environ "PORT" "" in
  (exists g, import_module empty_environ = Returned g /\ PORT g = 80) /\
  exists e, import_module env = Raised e /\ exc_class e = ValueError.
Proof.
  intros env. split; [exists default_globals; split; reflexivity|].
  exact (blank_port_is_not_defaulted excerpt env (text_of_string "")
           (or_introl eq_refl) eq_refl).
Defined.

(** X13.  [LOG_LEVEL] never stops the import and only the exact text
    [DEBUG] has an effect: every other value, [WARNING], [ERROR] and
    [debug] among them, gives the globals of an unset variable, with the
    level [INFO]. *)
Theorem unknown_log_level_is_info :
  forall (R : Runtime) env (v : Text),
    env "LOG_LEVEL" = None ->
    v <> "DEBUG" ->
    import_module (setenv env "LOG_LEVEL" v) = import_module env.
Proof.
  intros R env v Hn Hv. apply text_eqb_neq in Hv.
  unfold import_module, getenv, setenv.
  cbn [String.eqb Ascii.eqb Bool.eqb]. cbv iota.
  now rewrite Hv, Hn.
Qed.

Lemma unknown_log_level_is_info_witness :
  import_module (setenv empty_environ "LOG_LEVEL" "WARNING") =
    import_module empty_environ /\
  import_module (setenv empty_environ "LOG_LEVEL" "WARNING") =
    Returned default_globals.
Proof.
  assert (Hv : text_of_string "WARNING" <> "DEBUG") by discriminate.
  pose proof (unknown_log_level_is_info excerpt empty_environ "WARNING" eq_refl Hv) as H.
  split; [exact H|]. rewrite H. reflexivity.
Defined.

(** ** What the caller of the route sees *)

(** X14.  [GET /ping] is answered with status 200 or 500 and no other, and
    with 500 only when a logging call raised: a failure of the upstream
    server alone never gives an answer other than 200. *)
Theorem route_answers_200_or_500 :
  forall g w tr a,
    fst (get_ping g w tr) = Returned a ->
    (http_status a = 200 /\
     exists d, json a = Some d /\ dict_get d "status" = Some "healthy") \/
    (http_status a = 500 /\ json a = None /\
     exists rec e, emit w rec = Some e /\ isEnabledFor g (levelname rec) = true).
Proof.
  intros g w tr a H. rewrite get_ping_of_health_check in H.
  pose proof (health_check_outcome g w tr) as Ho.
  destruct (fst (health_check g w tr)) as [d|e]; cbn [respond] in H.
  - injection H as <-. left. split; [reflexivity|]. exists d. split; [reflexivity|].
    destruct Ho as [(r & _ & _ & ->) | [(r & _ & _ & ->) | [-> _]]]; reflexivity.
  - destruct (isinstance_Exception e) eqn:He; [|discriminate H].
    injection H as <-. right. split; [reflexivity|]. split; [reflexivity|].
    destruct Ho as [(rec & Hr & Hl) | [_ Hf]]; [eauto | congruence].
Qed.

Lemma route_answers_200_or_500_witness :
  let w := mkWorld disk_full refuses in
  let a := mkHttpResponse 500 None in
  fst (get_ping default_globals w []) = Returned a /\
  ((http_status a = 200 /\
    exists d, json a = Some d /\ dict_get d "status" = Some "healthy") \/
   (http_status a = 500 /\ json a = None /\
    exists rec e, emit w rec = Some e /\
                  isEnabledFor default_globals (levelname rec) = true)).
Proof.
  intros w a. split; [reflexivity|].
  exact (route_answers_200_or_500 default_globals w [] a eq_refl).
Defined.
